(** * impeller/entity/contents/filters/inputs/texture_filter_input.cc

    A shallow embedding of [impeller::TextureFilterInput], the leaf of the
    filter graph that wraps one backing texture, and the properties of its
    four queries: [GetInput], [GetSnapshot], [GetCoverage] and
    [GetLocalTransform].

    Scalars are exact rationals in canonical form ([Qc]), so that equality
    of two results is Leibniz equality of their components: rounding,
    infinities and NaN of the C++ [float] are outside this development. *)

From Stdlib Require Import ZArith QArith Qcanon String List Bool Lia.
Import ListNotations.

Local Open Scope Qc_scope.

(* ===================================================================== *)
(** * Scalars                                                             *)
(* ===================================================================== *)

(** [Scalar]: the type of coordinates and matrix entries. *)
Abbreviation Scalar := Qc (only parsing).

(** The conversion of an integer pixel count to a scalar. *)
Definition Scalar_of_Z (z : Z) : Scalar := Q2Qc (inject_Z z).

(** [std::min(a, b)] is [(b < a) ? b : a]. *)
Definition smin (a b : Scalar) : Scalar :=
  match b ?= a with Lt => b | _ => a end.

(** [std::max(a, b)] is [(a < b) ? b : a]. *)
Definition smax (a b : Scalar) : Scalar :=
  match a ?= b with Lt => b | _ => a end.

Definition sleb (a b : Scalar) : bool :=
  match a ?= b with Gt => false | _ => true end.

(* ===================================================================== *)
(** * Transform and rectangle primitives                                  *)
(* ===================================================================== *)

Record Point : Type := MkPoint { px : Scalar; py : Scalar }.

(** [ISize]: the pixel dimensions of a texture, a pair of signed integers. *)
Record ISize : Type := MkISize { isize_width : Z; isize_height : Z }.

(** Modelled from the spec: the declaration of [Matrix] is not part of the
    sources at hand.  The spec describes it as a 2D affine matrix; a point
    [(x, y)] is mapped to [(xx*x + xy*y + tx, yx*x + yy*y + ty)]. *)
Record Matrix : Type := MkMatrix {
  m_xx : Scalar; m_xy : Scalar; m_tx : Scalar;
  m_yx : Scalar; m_yy : Scalar; m_ty : Scalar
}.

Definition Matrix_identity : Matrix := MkMatrix 1 0 0 0 1 0.

Definition Matrix_MakeScale (sx sy : Scalar) : Matrix := MkMatrix sx 0 0 0 sy 0.

Definition Matrix_MakeTranslation (dx dy : Scalar) : Matrix :=
  MkMatrix 1 0 dx 0 1 dy.

(** [transform * point]. *)
Definition Matrix_apply (m : Matrix) (p : Point) : Point :=
  MkPoint (m_xx m * px p + m_xy m * py p + m_tx m)
          (m_yx m * px p + m_yy m * py p + m_ty m).

(** [a * b]: the transform that applies [b] first and [a] second. *)
Definition Matrix_mul (a b : Matrix) : Matrix :=
  MkMatrix (m_xx a * m_xx b + m_xy a * m_yx b)
           (m_xx a * m_xy b + m_xy a * m_yy b)
           (m_xx a * m_tx b + m_xy a * m_ty b + m_tx a)
           (m_yx a * m_xx b + m_yy a * m_yx b)
           (m_yx a * m_xy b + m_yy a * m_yy b)
           (m_yx a * m_tx b + m_yy a * m_ty b + m_ty a).

Definition Matrix_GetDeterminant (m : Matrix) : Scalar :=
  m_xx m * m_yy m - m_xy m * m_yx m.

(** An affine transform is invertible exactly when its determinant is not
    zero. *)
Definition Matrix_IsInvertible (m : Matrix) : Prop :=
  Matrix_GetDeterminant m <> 0.

Definition Matrix_IsInvertibleb (m : Matrix) : bool :=
  negb (Qc_eq_bool (Matrix_GetDeterminant m) 0).

(** [Rect]: origin and size, as in [(x, y, width, height)]. *)
Record Rect : Type := MkRect {
  rect_x : Scalar; rect_y : Scalar;
  rect_width : Scalar; rect_height : Scalar
}.

Definition Rect_MakeXYWH (x y w h : Scalar) : Rect := MkRect x y w h.

(** [Rect::MakeSize(size)]: the rectangle [[0, 0, width, height]]. *)
Definition Rect_MakeSize (size : ISize) : Rect :=
  MkRect 0 0 (Scalar_of_Z (isize_width size)) (Scalar_of_Z (isize_height size)).

Definition Rect_GetLeft (r : Rect) : Scalar := rect_x r.
Definition Rect_GetTop (r : Rect) : Scalar := rect_y r.
Definition Rect_GetRight (r : Rect) : Scalar := rect_x r + rect_width r.
Definition Rect_GetBottom (r : Rect) : Scalar := rect_y r + rect_height r.

(** A rectangle is empty when it has no area to draw. *)
Definition Rect_IsEmpty (r : Rect) : bool :=
  sleb (rect_width r) 0 || sleb (rect_height r) 0.

(** The four corners of a rectangle. *)
Definition Rect_GetPoints (r : Rect) : Point * list Point :=
  (MkPoint (Rect_GetLeft r) (Rect_GetTop r),
   [ MkPoint (Rect_GetRight r) (Rect_GetTop r);
     MkPoint (Rect_GetLeft r) (Rect_GetBottom r);
     MkPoint (Rect_GetRight r) (Rect_GetBottom r) ]).

(** The axis-aligned bounding rectangle of a non-empty sequence of points:
    the extreme coordinates are accumulated over the sequence. *)
Definition Rect_MakePointBounds (first : Point) (rest : list Point) : Rect :=
  let left := fold_left smin (map px rest) (px first) in
  let top := fold_left smin (map py rest) (py first) in
  let right := fold_left smax (map px rest) (px first) in
  let bottom := fold_left smax (map py rest) (py first) in
  MkRect left top (right - left) (bottom - top).

(** Modelled from the spec: [Rect::TransformBounds] is not part of the
    sources at hand.  The spec has it transform the four corners of the
    rectangle and return the axis-aligned bounding rectangle of the
    transformed corners. *)
Definition Rect_TransformBounds (r : Rect) (transform : Matrix) : Rect :=
  let '(first, rest) := Rect_GetPoints r in
  Rect_MakePointBounds (Matrix_apply transform first)
                       (map (Matrix_apply transform) rest).

(** A point lies in a rectangle (borders included). *)
Definition Rect_Contains (r : Rect) (p : Point) : Prop :=
  Rect_GetLeft r <= px p /\ px p <= Rect_GetRight r /\
  Rect_GetTop r <= py p /\ py p <= Rect_GetBottom r.

(** The corners of a rectangle, as one sequence. *)
Definition corners (r : Rect) : list Point :=
  fst (Rect_GetPoints r) :: snd (Rect_GetPoints r).

(** [b] is the axis-aligned bounding rectangle of [r] transformed by [m]:
    it contains the image under [m] of every corner of [r], and it lies
    inside every rectangle that does. *)
Definition is_bounding_rect (b r : Rect) (m : Matrix) : Prop :=
  (forall p, In p (corners r) -> Rect_Contains b (Matrix_apply m p)) /\
  (forall b', (forall p, In p (corners r) -> Rect_Contains b' (Matrix_apply m p)) ->
     Rect_GetLeft b' <= Rect_GetLeft b /\ Rect_GetRight b <= Rect_GetRight b' /\
     Rect_GetTop b' <= Rect_GetTop b /\ Rect_GetBottom b <= Rect_GetBottom b').

(* ===================================================================== *)
(** * Resources, results and the data of a snapshot                       *)
(* ===================================================================== *)

(** A texture, as far as the filter input reads it: its pixel dimensions
    and its number of mip levels ([GetSize], [GetMipCount]). *)
Record Texture : Type := MkTexture {
  texture_size : ISize;
  texture_mip_count : N
}.

Definition Texture_GetSize (t : Texture) : ISize := texture_size t.
Definition Texture_GetMipCount (t : Texture) : N := texture_mip_count t.

(** [std::shared_ptr<T>]: either null or a handle to an object. *)
Definition shared_ptr (T : Type) : Type := option T.
Definition nullptr {T : Type} : shared_ptr T := None.

(** What a call does: it returns a value, or it dereferences a null
    pointer, after which the C++ program has no defined behaviour. *)
Inductive outcome (A : Type) : Type :=
| Returns (a : A)
| NullDereference.
Arguments Returns {A} a.
Arguments NullDereference {A}.

(** [p->f()]. *)
Definition arrow {T A : Type} (p : shared_ptr T) (f : T -> A) : outcome A :=
  match p with
  | Some t => Returns (f t)
  | None => NullDereference
  end.

Definition bind {A B : Type} (o : outcome A) (k : A -> outcome B) : outcome B :=
  match o with
  | Returns a => k a
  | NullDereference => NullDereference
  end.

Notation "x <- o ;; k" := (bind o (fun x => k))
  (at level 61, o at next level, right associativity).

Inductive MinMagFilter : Type := MinMagFilter_kNearest | MinMagFilter_kLinear.

Inductive MipFilter : Type :=
| MipFilter_kNone      (* no mip filtering: sample the base level *)
| MipFilter_kNearest
| MipFilter_kLinear.   (* blend between mip levels: trilinear sampling *)

Definition MipFilter_eqb (a b : MipFilter) : bool :=
  match a, b with
  | MipFilter_kNone, MipFilter_kNone
  | MipFilter_kNearest, MipFilter_kNearest
  | MipFilter_kLinear, MipFilter_kLinear => true
  | _, _ => false
  end.

(** Modelled from the spec: the declaration of [SamplerDescriptor] is not
    part of the sources at hand.  The spec lists a filter mode, a mip
    filter mode and an optional human-readable label. *)
Record SamplerDescriptor : Type := MkSamplerDescriptor {
  min_mag_filter : MinMagFilter;
  mip_filter : MipFilter;
  label : option string
}.

Definition has_label (d : SamplerDescriptor) : bool :=
  match label d with
  | Some s => negb (String.eqb s EmptyString)
  | None => false
  end.

(** What the leaf takes from its surroundings without looking inside: the
    renderer context, the interior nodes of the graph, the entity with its
    accumulated transform, and the filter mode and the label a sampler
    descriptor starts with. *)
Class Collaborators : Type := {
  ContentContext : Type;
  FilterContents : Type;
  Entity : Type;
  Entity_GetTransformation : Entity -> Matrix;
  default_min_mag_filter : MinMagFilter;
  default_label : option string
}.

Section Leaf.

Context `{Collaborators}.

(** Modelled from the spec: a default-constructed [SamplerDescriptor] does
    no mip filtering.  The spec fixes neither its filter mode nor its
    label: both are those of the collaborators. *)
Definition SamplerDescriptor_default : SamplerDescriptor :=
  {| min_mag_filter := default_min_mag_filter;
     mip_filter := MipFilter_kNone;
     label := default_label |}.

(** [Snapshot]: a renderable image, its placement and its sampling policy. *)
Record Snapshot : Type := MkSnapshot {
  texture : shared_ptr Texture;
  transform : Matrix;
  sampler_descriptor : SamplerDescriptor
}.

(** [FilterInput::Variant]: the closed union of what a filter input wraps. *)
Inductive Variant : Type :=
| Variant_FilterContents (contents : shared_ptr FilterContents)
| Variant_Texture (tex : shared_ptr Texture).

(** The state of a [TextureFilterInput]. *)
Record TextureFilterInput : Type := MkTextureFilterInput {
  texture_ : shared_ptr Texture;
  local_transform_ : Matrix
}.

(** [TextureFilterInput::TextureFilterInput(texture, local_transform)]:
    both members are initialised from the arguments, and the body is
    empty. *)
Definition TextureFilterInput_new
    (tex : shared_ptr Texture) (local_transform : Matrix) : TextureFilterInput :=
  {| texture_ := tex; local_transform_ := local_transform |}.

(** [TextureFilterInput::GetInput]. *)
Definition GetInput (self : TextureFilterInput) : Variant :=
  Variant_Texture (texture_ self).

(** [TextureFilterInput::GetLocalTransform]. *)
Definition GetLocalTransform (self : TextureFilterInput) (entity : Entity) : Matrix :=
  local_transform_ self.

(** Modelled from the spec: [FilterInput::GetTransform] belongs to the base
    class, which is not part of the sources at hand.  The spec composes the
    local transform, applied first, with the accumulated transform of the
    entity. *)
Definition GetTransform (self : TextureFilterInput) (entity : Entity) : Matrix :=
  Matrix_mul (Entity_GetTransformation entity) (GetLocalTransform self entity).

(** [TextureFilterInput::GetSnapshot]. *)
Definition GetSnapshot (self : TextureFilterInput)
    (renderer : ContentContext) (entity : Entity) : outcome (option Snapshot) :=
  let snapshot :=
    {| texture := texture_ self;
       transform := GetTransform self entity;
       sampler_descriptor := SamplerDescriptor_default |} in
  mip_count <- arrow (texture_ self) Texture_GetMipCount ;;
  let snapshot :=
    if (1 <? mip_count)%N then
      let descriptor := sampler_descriptor snapshot in
      let descriptor :=
        {| min_mag_filter := min_mag_filter descriptor;
           mip_filter := mip_filter descriptor;
           label := Some "TextureFilterInput Trilinear Sampler"%string |} in
      let descriptor :=
        {| min_mag_filter := min_mag_filter descriptor;
           mip_filter := MipFilter_kLinear;
           label := label descriptor |} in
      {| texture := texture snapshot;
         transform := transform snapshot;
         sampler_descriptor := descriptor |}
    else snapshot in
  Returns (Some snapshot).

(** [TextureFilterInput::GetCoverage]. *)
Definition GetCoverage (self : TextureFilterInput) (entity : Entity)
    : outcome (option Rect) :=
  size <- arrow (texture_ self) Texture_GetSize ;;
  Returns (Some (Rect_TransformBounds (Rect_MakeSize size)
                                      (GetTransform self entity))).

(** A coverage that contributes nothing drawable: no rectangle, or an
    empty one. *)
Definition Coverage_IsEmpty (coverage : option Rect) : bool :=
  match coverage with
  | None => true
  | Some r => Rect_IsEmpty r
  end.

(** ** The member functions as computations on the object

    A member function runs on the object it is called on.  It can read the
    members and it can write them; it returns a value together with the
    object as it leaves it, or it dereferences a null pointer. *)

Definition Method (A : Type) : Type :=
  TextureFilterInput -> outcome (A * TextureFilterInput).

Definition ret {A : Type} (a : A) : Method A :=
  fun this => Returns (a, this).

Definition mbind {A B : Type} (m : Method A) (k : A -> Method B) : Method B :=
  fun this =>
    match m this with
    | Returns (a, this') => k a this'
    | NullDereference => NullDereference
    end.

(** Reading a member of [*this]. *)
Definition load {A : Type} (member : TextureFilterInput -> A) : Method A :=
  fun this => Returns (member this, this).

(** Writing a member of [*this]. *)
Definition store_texture_ (v : shared_ptr Texture) : Method unit :=
  fun this =>
    Returns (tt, {| texture_ := v; local_transform_ := local_transform_ this |}).

Definition store_local_transform_ (v : Matrix) : Method unit :=
  fun this => Returns (tt, {| texture_ := texture_ this; local_transform_ := v |}).

(** [p->f()] inside a member function. *)
Definition arrow_m {T A : Type} (p : shared_ptr T) (f : T -> A) : Method A :=
  fun this =>
    match p with
    | Some t => Returns (f t, this)
    | None => NullDereference
    end.

Notation "x <~ m ;; k" := (mbind m (fun x => k))
  (at level 61, m at next level, right associativity).

(** The constructor: the member initialisers [texture_(std::move(texture))]
    and [local_transform_(local_transform)], then the empty body. *)
Definition TextureFilterInput_ctor
    (tex : shared_ptr Texture) (local_transform : Matrix) : Method unit :=
  _ <~ store_texture_ tex ;;
  _ <~ store_local_transform_ local_transform ;;
  ret tt.

(** [GetInput() const { return texture_; }] *)
Definition GetInput_method : Method Variant :=
  tex <~ load texture_ ;;
  ret (Variant_Texture tex).

(** [GetLocalTransform(entity) const { return local_transform_; }] *)
Definition GetLocalTransform_method (entity : Entity) : Method Matrix :=
  m <~ load local_transform_ ;;
  ret m.

(** Modelled from the spec: [FilterInput::GetTransform] of the base class,
    which calls the virtual [GetLocalTransform] on the object. *)
Definition GetTransform_method (entity : Entity) : Method Matrix :=
  local_transform <~ GetLocalTransform_method entity ;;
  ret (Matrix_mul (Entity_GetTransformation entity) local_transform).

(** [GetSnapshot(renderer, entity) const], statement by statement. *)
Definition GetSnapshot_method (renderer : ContentContext) (entity : Entity)
    : Method (option Snapshot) :=
  tex <~ load texture_ ;;
  m <~ GetTransform_method entity ;;
  let snapshot :=
    {| texture := tex;
       transform := m;
       sampler_descriptor := SamplerDescriptor_default |} in
  tex' <~ load texture_ ;;
  mip_count <~ arrow_m tex' Texture_GetMipCount ;;
  let snapshot :=
    if (1 <? mip_count)%N then
      let descriptor := sampler_descriptor snapshot in
      let descriptor :=
        {| min_mag_filter := min_mag_filter descriptor;
           mip_filter := mip_filter descriptor;
           label := Some "TextureFilterInput Trilinear Sampler"%string |} in
      let descriptor :=
        {| min_mag_filter := min_mag_filter descriptor;
           mip_filter := MipFilter_kLinear;
           label := label descriptor |} in
      {| texture := texture snapshot;
         transform := transform snapshot;
         sampler_descriptor := descriptor |}
    else snapshot in
  ret (Some snapshot).

(** [GetCoverage(entity) const]: the size is read through the handle, then
    the transform is asked for. *)
Definition GetCoverage_method (entity : Entity) : Method (option Rect) :=
  tex <~ load texture_ ;;
  size <~ arrow_m tex Texture_GetSize ;;
  m <~ GetTransform_method entity ;;
  ret (Some (Rect_TransformBounds (Rect_MakeSize size) m)).

(** ** A pass of the evaluation engine over one input

    The engine asks the four queries in any order and any number of times.
    [invoke] runs the member function a query names, and [invoke_all] runs
    a sequence of queries, each on the object the previous one left. *)

Inductive Query : Type :=
| Query_GetInput
| Query_GetSnapshot (renderer : ContentContext) (entity : Entity)
| Query_GetCoverage (entity : Entity)
| Query_GetLocalTransform (entity : Entity).

Inductive Answer : Type :=
| Answer_Input (v : Variant)
| Answer_Snapshot (s : option Snapshot)
| Answer_Coverage (c : option Rect)
| Answer_LocalTransform (m : Matrix).

Definition invoke (q : Query) : Method Answer :=
  match q with
  | Query_GetInput =>
      v <~ GetInput_method ;; ret (Answer_Input v)
  | Query_GetSnapshot renderer entity =>
      s <~ GetSnapshot_method renderer entity ;; ret (Answer_Snapshot s)
  | Query_GetCoverage entity =>
      c <~ GetCoverage_method entity ;; ret (Answer_Coverage c)
  | Query_GetLocalTransform entity =>
      m <~ GetLocalTransform_method entity ;; ret (Answer_LocalTransform m)
  end.

Fixpoint invoke_all (qs : list Query) : Method (list Answer) :=
  match qs with
  | [] => ret []
  | q :: qs' =>
      a <~ invoke q ;;
      answers <~ invoke_all qs' ;;
      ret (a :: answers)
  end.

(** The answer the queries give on an object, read off the functions
    [GetInput], [GetSnapshot], [GetCoverage] and [GetLocalTransform]. *)
Definition answer_of (this : TextureFilterInput) (q : Query) : outcome Answer :=
  match q with
  | Query_GetInput => Returns (Answer_Input (GetInput this))
  | Query_GetSnapshot renderer entity =>
      s <- GetSnapshot this renderer entity ;; Returns (Answer_Snapshot s)
  | Query_GetCoverage entity =>
      c <- GetCoverage this entity ;; Returns (Answer_Coverage c)
  | Query_GetLocalTransform entity =>
      Returns (Answer_LocalTransform (GetLocalTransform this entity))
  end.

End Leaf.

(** ** Concrete collaborators, for running the model

    The entity is its accumulated transform, and the renderer context and
    the interior nodes carry nothing. *)
#[local] Instance plain_collaborators : Collaborators :=
  {| ContentContext := unit;
     FilterContents := unit;
     Entity := Matrix;
     Entity_GetTransformation := fun m => m;
     default_min_mag_filter := MinMagFilter_kNearest;
     default_label := None |}.

Definition entity_with (m : Matrix) : @Entity plain_collaborators := m.
Definition the_renderer : @ContentContext plain_collaborators := tt.

Definition Q_ (n : Z) (d : positive) : Scalar := Q2Qc (n # d).

(** The texture of the scenarios: 100 by 50 pixels. *)
Definition texture_100x50 (mip_count : N) : Texture :=
  MkTexture (MkISize 100 50) mip_count.

(* ===================================================================== *)
(** * Facts about the primitives                                          *)
(* ===================================================================== *)

Section Extremes.

Lemma smin_le_l (a b : Scalar) : smin a b <= a.
Proof.
  unfold smin. destruct (b ?= a) eqn:E; try apply Qcle_refl.
  apply Qclt_le_weak, Qclt_alt, E.
Qed.

Lemma smin_le_r (a b : Scalar) : smin a b <= b.
Proof.
  unfold smin. destruct (b ?= a) eqn:E.
  - apply Qceq_alt in E. subst. apply Qcle_refl.
  - apply Qcle_refl.
  - apply Qcgt_alt in E. apply Qclt_le_weak, E.
Qed.

Lemma smin_glb (c a b : Scalar) : c <= a -> c <= b -> c <= smin a b.
Proof. intros Ha Hb. unfold smin. destruct (b ?= a); assumption. Qed.

Lemma smax_ge_l (a b : Scalar) : a <= smax a b.
Proof.
  unfold smax. destruct (a ?= b) eqn:E; try apply Qcle_refl.
  apply Qclt_le_weak, Qclt_alt, E.
Qed.

Lemma smax_ge_r (a b : Scalar) : b <= smax a b.
Proof.
  unfold smax. destruct (a ?= b) eqn:E.
  - apply Qceq_alt in E. subst. apply Qcle_refl.
  - apply Qcle_refl.
  - apply Qcgt_alt in E. apply Qclt_le_weak, E.
Qed.

Lemma smax_lub (c a b : Scalar) : a <= c -> b <= c -> smax a b <= c.
Proof. intros Ha Hb. unfold smax. destruct (a ?= b); assumption. Qed.

(** The accumulated minimum is below the start value and below every
    element of the sequence, and it is the greatest such bound. *)
Lemma fold_smin_le (l : list Scalar) :
  forall acc x, x = acc \/ In x l -> fold_left smin l acc <= x.
Proof.
  induction l as [|y l IH]; intros acc x Hx; simpl.
  - destruct Hx as [->|[]]. apply Qcle_refl.
  - destruct Hx as [->|[->|Hin]].
    + eapply Qcle_trans; [apply IH; left; reflexivity | apply smin_le_l].
    + eapply Qcle_trans; [apply IH; left; reflexivity | apply smin_le_r].
    + apply IH. right. exact Hin.
Qed.

Lemma fold_smin_glb (l : list Scalar) :
  forall acc c, c <= acc -> (forall x, In x l -> c <= x) ->
  c <= fold_left smin l acc.
Proof.
  induction l as [|y l IH]; intros acc c Hacc Hl; simpl.
  - exact Hacc.
  - apply IH.
    + apply smin_glb; [exact Hacc | apply Hl; left; reflexivity].
    + intros x Hx. apply Hl. right. exact Hx.
Qed.

Lemma fold_smax_ge (l : list Scalar) :
  forall acc x, x = acc \/ In x l -> x <= fold_left smax l acc.
Proof.
  induction l as [|y l IH]; intros acc x Hx; simpl.
  - destruct Hx as [->|[]]. apply Qcle_refl.
  - destruct Hx as [->|[->|Hin]].
    + eapply Qcle_trans; [apply smax_ge_l | apply IH; left; reflexivity].
    + eapply Qcle_trans; [apply smax_ge_r | apply IH; left; reflexivity].
    + apply IH. right. exact Hin.
Qed.

Lemma fold_smax_lub (l : list Scalar) :
  forall acc c, acc <= c -> (forall x, In x l -> x <= c) ->
  fold_left smax l acc <= c.
Proof.
  induction l as [|y l IH]; intros acc c Hacc Hl; simpl.
  - exact Hacc.
  - apply IH.
    + apply smax_lub; [exact Hacc | apply Hl; left; reflexivity].
    + intros x Hx. apply Hl. right. exact Hx.
Qed.

Lemma add_sub_cancel (a b : Scalar) : a + (b - a) = b.
Proof. ring. Qed.

Lemma sub_nonneg (a b : Scalar) : a <= b -> 0 <= b - a.
Proof. intros H. apply Qcle_minus_iff in H. exact H. Qed.

Lemma sleb_true (a b : Scalar) : sleb a b = true <-> a <= b.
Proof.
  unfold sleb. rewrite Qcle_alt. destruct (a ?= b); split; congruence.
Qed.

End Extremes.

Section Bounds.

Variables (first : Point) (rest : list Point).

Lemma In_map_coord (f : Point -> Scalar) (p : Point) :
  In p (first :: rest) -> f p = f first \/ In (f p) (map f rest).
Proof.
  intros [->|Hin]; [left; reflexivity | right; apply in_map; exact Hin].
Qed.

(** The rectangle of [Rect_MakePointBounds] contains every point it was
    made from. *)
Lemma MakePointBounds_contains (p : Point) :
  In p (first :: rest) -> Rect_Contains (Rect_MakePointBounds first rest) p.
Proof.
  intros Hin. unfold Rect_Contains, Rect_MakePointBounds,
    Rect_GetLeft, Rect_GetRight, Rect_GetTop, Rect_GetBottom; simpl.
  rewrite !add_sub_cancel.
  repeat split.
  - apply fold_smin_le, In_map_coord, Hin.
  - apply fold_smax_ge, In_map_coord, Hin.
  - apply fold_smin_le, In_map_coord, Hin.
  - apply fold_smax_ge, In_map_coord, Hin.
Qed.

(** It lies inside every rectangle that contains all of those points. *)
Lemma MakePointBounds_least (r : Rect) :
  (forall p, In p (first :: rest) -> Rect_Contains r p) ->
  let b := Rect_MakePointBounds first rest in
  Rect_GetLeft r <= Rect_GetLeft b /\ Rect_GetRight b <= Rect_GetRight r /\
  Rect_GetTop r <= Rect_GetTop b /\ Rect_GetBottom b <= Rect_GetBottom r.
Proof.
  intros Hall.
  assert (Hf := Hall first (or_introl eq_refl)).
  assert (Hr : forall (f : Point -> Scalar) x, In x (map f rest) ->
               exists p, x = f p /\ Rect_Contains r p).
  { intros f x Hx. apply in_map_iff in Hx. destruct Hx as [p [<- Hp]].
    exists p. split; [reflexivity | apply Hall; right; exact Hp]. }
  unfold Rect_MakePointBounds, Rect_GetLeft, Rect_GetRight, Rect_GetTop,
    Rect_GetBottom in *; simpl. rewrite !add_sub_cancel.
  destruct Hf as (Hf1 & Hf2 & Hf3 & Hf4).
  repeat split.
  - apply fold_smin_glb; [exact Hf1|].
    intros x Hx. destruct (Hr _ _ Hx) as [p [-> Hp]]. apply Hp.
  - apply fold_smax_lub; [exact Hf2|].
    intros x Hx. destruct (Hr _ _ Hx) as [p [-> Hp]]. apply Hp.
  - apply fold_smin_glb; [exact Hf3|].
    intros x Hx. destruct (Hr _ _ Hx) as [p [-> Hp]]. apply Hp.
  - apply fold_smax_lub; [exact Hf4|].
    intros x Hx. destruct (Hr _ _ Hx) as [p [-> Hp]]. apply Hp.
Qed.

(** Its width and its height are not negative. *)
Lemma MakePointBounds_nonneg :
  0 <= rect_width (Rect_MakePointBounds first rest) /\
  0 <= rect_height (Rect_MakePointBounds first rest).
Proof.
  unfold Rect_MakePointBounds; simpl. split; apply sub_nonneg.
  - eapply Qcle_trans; [apply fold_smin_le | apply fold_smax_ge];
      left; reflexivity.
  - eapply Qcle_trans; [apply fold_smin_le | apply fold_smax_ge];
      left; reflexivity.
Qed.

End Bounds.

Lemma TransformBounds_nonneg (r : Rect) (m : Matrix) :
  0 <= rect_width (Rect_TransformBounds r m) /\
  0 <= rect_height (Rect_TransformBounds r m).
Proof.
  unfold Rect_TransformBounds, Rect_GetPoints. apply MakePointBounds_nonneg.
Qed.

Lemma TransformBounds_is_bounding_rect (r : Rect) (m : Matrix) :
  is_bounding_rect (Rect_TransformBounds r m) r m.
Proof.
  unfold is_bounding_rect, Rect_TransformBounds, corners, Rect_GetPoints.
  cbn [fst snd]. split.
  - intros p Hp. apply MakePointBounds_contains.
    change (In (Matrix_apply m p)
      (map (Matrix_apply m)
         (MkPoint (Rect_GetLeft r) (Rect_GetTop r) ::
          [MkPoint (Rect_GetRight r) (Rect_GetTop r);
           MkPoint (Rect_GetLeft r) (Rect_GetBottom r);
           MkPoint (Rect_GetRight r) (Rect_GetBottom r)]))).
    apply in_map. exact Hp.
  - intros b' Hb'. apply MakePointBounds_least.
    intros q Hq.
    change (In q
      (map (Matrix_apply m)
         (MkPoint (Rect_GetLeft r) (Rect_GetTop r) ::
          [MkPoint (Rect_GetRight r) (Rect_GetTop r);
           MkPoint (Rect_GetLeft r) (Rect_GetBottom r);
           MkPoint (Rect_GetRight r) (Rect_GetBottom r)]))) in Hq.
    apply in_map_iff in Hq. destruct Hq as [p [<- Hp]]. apply Hb'. exact Hp.
Qed.

(** The product of two transforms applies the right factor first. *)
Lemma Matrix_apply_mul (a b : Matrix) (p : Point) :
  Matrix_apply (Matrix_mul a b) p = Matrix_apply a (Matrix_apply b p).
Proof.
  unfold Matrix_apply, Matrix_mul.
  cbn [m_xx m_xy m_tx m_yx m_yy m_ty px py]. f_equal; ring.
Qed.

(** The determinant is multiplicative. *)
Lemma Matrix_GetDeterminant_mul (a b : Matrix) :
  Matrix_GetDeterminant (Matrix_mul a b) =
  Matrix_GetDeterminant a * Matrix_GetDeterminant b.
Proof.
  unfold Matrix_GetDeterminant, Matrix_mul.
  cbn [m_xx m_xy m_tx m_yx m_yy m_ty]. ring.
Qed.

Lemma Matrix_IsInvertible_mul (a b : Matrix) :
  Matrix_IsInvertible (Matrix_mul a b) <->
  Matrix_IsInvertible a /\ Matrix_IsInvertible b.
Proof.
  unfold Matrix_IsInvertible. rewrite Matrix_GetDeterminant_mul. split.
  - intros Hab. split; intros E; apply Hab; rewrite E; ring.
  - intros [Ha Hb] E. apply Qcmult_integral in E. tauto.
Qed.

Lemma Matrix_IsInvertibleb_spec (m : Matrix) :
  Matrix_IsInvertibleb m = true <-> Matrix_IsInvertible m.
Proof.
  unfold Matrix_IsInvertibleb, Matrix_IsInvertible. rewrite negb_true_iff.
  split.
  - intros Hb E. unfold Qc_eq_bool in Hb.
    destruct (Qc_eq_dec (Matrix_GetDeterminant m) 0); [discriminate | contradiction].
  - intros Hne. destruct (Qc_eq_bool (Matrix_GetDeterminant m) 0) eqn:E;
      [|reflexivity].
    apply Qc_eq_bool_correct in E. contradiction.
Qed.

(** Two rectangles, or two transforms, with the same components are the
    same value. *)
Lemma Rect_eq_intro (r r' : Rect) :
  rect_x r = rect_x r' -> rect_y r = rect_y r' ->
  rect_width r = rect_width r' -> rect_height r = rect_height r' -> r = r'.
Proof. destruct r, r'; simpl; intros; subst; reflexivity. Qed.

Lemma Matrix_eq_intro (a b : Matrix) :
  m_xx a = m_xx b -> m_xy a = m_xy b -> m_tx a = m_tx b ->
  m_yx a = m_yx b -> m_yy a = m_yy b -> m_ty a = m_ty b -> a = b.
Proof. destruct a, b; simpl; intros; subst; reflexivity. Qed.

Lemma Matrix_mul_identity_l (m : Matrix) : Matrix_mul Matrix_identity m = m.
Proof.
  apply Matrix_eq_intro; unfold Matrix_mul, Matrix_identity;
    cbn [m_xx m_xy m_tx m_yx m_yy m_ty]; ring.
Qed.

Lemma Matrix_mul_identity_r (m : Matrix) : Matrix_mul m Matrix_identity = m.
Proof.
  apply Matrix_eq_intro; unfold Matrix_mul, Matrix_identity;
    cbn [m_xx m_xy m_tx m_yx m_yy m_ty]; ring.
Qed.

(** Closed scalar equations are settled by evaluation of both sides. *)
Ltac scalar_eval := apply Qc_is_canon; vm_compute; reflexivity.
Ltac rect_eval := apply Rect_eq_intro; scalar_eval.
Ltac matrix_eval := apply Matrix_eq_intro; scalar_eval.
Ltac coverage_eval :=
  apply (f_equal (fun r : Rect => Returns (Some r))); rect_eval.

(* ===================================================================== *)
(** * The leaf on a valid handle                                          *)
(* ===================================================================== *)

Section LeafFacts.

Context `{Collaborators}.

Variables (input : TextureFilterInput) (tex : Texture).
Hypothesis Hvalid : texture_ input = Some tex.

(** The snapshot [GetSnapshot] builds on a valid handle. *)
Lemma GetSnapshot_valid (renderer : ContentContext) (entity : Entity) :
  GetSnapshot input renderer entity =
  Returns (Some
    {| texture := texture_ input;
       transform := GetTransform input entity;
       sampler_descriptor :=
         if (1 <? Texture_GetMipCount tex)%N
         then {| min_mag_filter := default_min_mag_filter;
                 mip_filter := MipFilter_kLinear;
                 label := Some "TextureFilterInput Trilinear Sampler"%string |}
         else SamplerDescriptor_default |}).
Proof.
  unfold GetSnapshot. rewrite Hvalid. cbn [arrow bind].
  destruct (1 <? Texture_GetMipCount tex)%N; reflexivity.
Qed.

(** The rectangle [GetCoverage] computes on a valid handle. *)
Lemma GetCoverage_valid (entity : Entity) :
  GetCoverage input entity =
  Returns (Some (Rect_TransformBounds (Rect_MakeSize (Texture_GetSize tex))
                                      (GetTransform input entity))).
Proof. unfold GetCoverage. rewrite Hvalid. reflexivity. Qed.

End LeafFacts.

(** On a null handle both queries dereference it. *)
Lemma GetSnapshot_null `{Collaborators} (input : TextureFilterInput)
    (renderer : ContentContext) (entity : Entity) :
  texture_ input = nullptr ->
  GetSnapshot input renderer entity = NullDereference.
Proof. intros Hnull. unfold GetSnapshot. rewrite Hnull. reflexivity. Qed.

Lemma GetCoverage_null `{Collaborators} (input : TextureFilterInput)
    (entity : Entity) :
  texture_ input = nullptr -> GetCoverage input entity = NullDereference.
Proof. intros Hnull. unfold GetCoverage. rewrite Hnull. reflexivity. Qed.

(** The constructor run on any storage leaves the object that
    [TextureFilterInput_new] describes. *)
Lemma TextureFilterInput_ctor_constructs `{Collaborators}
    (storage : TextureFilterInput)
    (tex : shared_ptr Texture) (local_transform : Matrix) :
  TextureFilterInput_ctor tex local_transform storage =
  Returns (tt, TextureFilterInput_new tex local_transform).
Proof. reflexivity. Qed.

(** Each member function computes what the function of the same name says
    and leaves the object as it found it. *)
Lemma GetInput_method_run `{Collaborators} (this : TextureFilterInput) :
  GetInput_method this = Returns (GetInput this, this).
Proof. reflexivity. Qed.

Lemma GetLocalTransform_method_run `{Collaborators}
    (this : TextureFilterInput) (entity : Entity) :
  GetLocalTransform_method entity this =
  Returns (GetLocalTransform this entity, this).
Proof. reflexivity. Qed.

Lemma GetTransform_method_run `{Collaborators}
    (this : TextureFilterInput) (entity : Entity) :
  GetTransform_method entity this = Returns (GetTransform this entity, this).
Proof. reflexivity. Qed.

Lemma GetSnapshot_method_run `{Collaborators} (this : TextureFilterInput)
    (renderer : ContentContext) (entity : Entity) :
  GetSnapshot_method renderer entity this =
  (s <- GetSnapshot this renderer entity ;; Returns (s, this)).
Proof.
  unfold GetSnapshot_method, GetSnapshot, mbind, load, arrow_m, ret.
  rewrite GetTransform_method_run.
  destruct (texture_ this) as [tex|]; cbn [arrow bind]; reflexivity.
Qed.

Lemma GetCoverage_method_run `{Collaborators} (this : TextureFilterInput)
    (entity : Entity) :
  GetCoverage_method entity this =
  (c <- GetCoverage this entity ;; Returns (c, this)).
Proof.
  unfold GetCoverage_method, GetCoverage, mbind, load, arrow_m, ret.
  destruct (texture_ this) as [tex|]; cbn [arrow bind];
    [rewrite GetTransform_method_run|]; reflexivity.
Qed.

Lemma invoke_run `{Collaborators} (this : TextureFilterInput) (q : Query) :
  invoke q this = (a <- answer_of this q ;; Returns (a, this)).
Proof.
  destruct q as [|renderer entity|entity|entity];
    unfold invoke, answer_of, mbind.
  - rewrite GetInput_method_run. reflexivity.
  - rewrite GetSnapshot_method_run.
    destruct (GetSnapshot this renderer entity); reflexivity.
  - rewrite GetCoverage_method_run.
    destruct (GetCoverage this entity); reflexivity.
  - rewrite GetLocalTransform_method_run. reflexivity.
Qed.

(** On a valid handle every query is answered. *)
Lemma answer_of_valid `{Collaborators} (this : TextureFilterInput)
    (tex : Texture) (q : Query) :
  texture_ this = Some tex -> exists a, answer_of this q = Returns a.
Proof.
  intros Hvalid. destruct q as [|renderer entity|entity|entity];
    unfold answer_of.
  - eexists. reflexivity.
  - rewrite (GetSnapshot_valid this tex Hvalid). eexists. reflexivity.
  - rewrite (GetCoverage_valid this tex Hvalid). eexists. reflexivity.
  - eexists. reflexivity.
Qed.

(** A pass over a valid handle answers every query and leaves the object
    as it found it. *)
Lemma invoke_all_valid `{Collaborators} (this : TextureFilterInput)
    (tex : Texture) (qs : list Query) :
  texture_ this = Some tex ->
  exists answers, invoke_all qs this = Returns (answers, this).
Proof.
  intros Hvalid. induction qs as [|q qs [answers IH]].
  - exists []. reflexivity.
  - destruct (answer_of_valid this tex q Hvalid) as [a Ha].
    exists (a :: answers). cbn [invoke_all]. unfold mbind at 1.
    rewrite invoke_run, Ha. cbn [bind]. unfold mbind at 1.
    rewrite IH. reflexivity.
Qed.

(* ===================================================================== *)
(** * Properties of [TextureFilterInput]                                  *)
(* ===================================================================== *)

(** C1. Transform and coverage agree.  For an entity whose accumulated
    transform is invertible and a texture of pixel dimensions [(w, h)] with
    [w, h > 0], [GetSnapshot] returns a snapshot and [GetCoverage] returns
    exactly the axis-aligned bounding rectangle of the rectangle
    [[0, 0, w, h]] transformed by that snapshot's transform: the value of
    [Rect_TransformBounds] there, which is the least rectangle containing
    the four transformed corners. *)
Theorem coverage_agrees_with_snapshot_transform `{Collaborators}
    (input : TextureFilterInput) (tex : Texture)
    (renderer : ContentContext) (entity : Entity) :
  texture_ input = Some tex ->
  (0 < isize_width (Texture_GetSize tex))%Z ->
  (0 < isize_height (Texture_GetSize tex))%Z ->
  Matrix_IsInvertible (Entity_GetTransformation entity) ->
  exists snapshot : Snapshot,
    GetSnapshot input renderer entity = Returns (Some snapshot) /\
    GetCoverage input entity =
      Returns (Some (Rect_TransformBounds
                       (Rect_MakeXYWH 0 0
                          (Scalar_of_Z (isize_width (Texture_GetSize tex)))
                          (Scalar_of_Z (isize_height (Texture_GetSize tex))))
                       (transform snapshot))) /\
    is_bounding_rect
      (Rect_TransformBounds
         (Rect_MakeXYWH 0 0
            (Scalar_of_Z (isize_width (Texture_GetSize tex)))
            (Scalar_of_Z (isize_height (Texture_GetSize tex))))
         (transform snapshot))
      (Rect_MakeXYWH 0 0
         (Scalar_of_Z (isize_width (Texture_GetSize tex)))
         (Scalar_of_Z (isize_height (Texture_GetSize tex))))
      (transform snapshot).
Proof.
  intros Hvalid _ _ _.
  eexists. split; [apply (GetSnapshot_valid input tex Hvalid)|].
  cbn [transform]. split.
  - rewrite (GetCoverage_valid input tex Hvalid). reflexivity.
  - apply TransformBounds_is_bounding_rect.
Qed.

Lemma coverage_agrees_with_snapshot_transform_witness :
  exists snapshot : Snapshot,
    GetSnapshot (TextureFilterInput_new (Some (texture_100x50 1)) Matrix_identity)
                the_renderer (entity_with (Matrix_MakeScale (Q_ 1 2) (Q_ 1 2)))
      = Returns (Some snapshot) /\
    GetCoverage (TextureFilterInput_new (Some (texture_100x50 1)) Matrix_identity)
                (entity_with (Matrix_MakeScale (Q_ 1 2) (Q_ 1 2)))
      = Returns (Some (Rect_TransformBounds
                         (Rect_MakeXYWH 0 0 (Scalar_of_Z 100) (Scalar_of_Z 50))
                         (transform snapshot))).
Proof.
  destruct (coverage_agrees_with_snapshot_transform
              (TextureFilterInput_new (Some (texture_100x50 1)) Matrix_identity)
              (texture_100x50 1) the_renderer
              (entity_with (Matrix_MakeScale (Q_ 1 2) (Q_ 1 2))))
    as [snapshot [Hs [Hc _]]].
  - reflexivity.
  - simpl. lia.
  - simpl. lia.
  - apply Matrix_IsInvertibleb_spec. vm_compute. reflexivity.
  - exists snapshot. split; [exact Hs | exact Hc].
Defined.

(** C2. Mip-sampler policy.  For an input whose backing texture has [m] mip
    levels, the snapshot of [GetSnapshot] has its mip filter set to linear
    if and only if [m > 1]; when [m > 1] it also carries a non-empty label,
    and when [m <= 1] its sampler descriptor is the default one. *)
Theorem mip_sampler_policy `{Collaborators}
    (input : TextureFilterInput) (tex : Texture)
    (renderer : ContentContext) (entity : Entity) :
  texture_ input = Some tex ->
  exists snapshot : Snapshot,
    GetSnapshot input renderer entity = Returns (Some snapshot) /\
    (mip_filter (sampler_descriptor snapshot) = MipFilter_kLinear <->
     (1 < Texture_GetMipCount tex)%N) /\
    ((1 < Texture_GetMipCount tex)%N ->
     has_label (sampler_descriptor snapshot) = true) /\
    ((Texture_GetMipCount tex <= 1)%N ->
     sampler_descriptor snapshot = SamplerDescriptor_default).
Proof.
  intros Hvalid.
  eexists. split; [apply (GetSnapshot_valid input tex Hvalid)|].
  cbn [sampler_descriptor].
  destruct (1 <? Texture_GetMipCount tex)%N eqn:E.
  - apply N.ltb_lt in E. repeat split; intros; try reflexivity; try assumption.
    lia.
  - apply N.ltb_ge in E. repeat split; intros; try reflexivity.
    + discriminate.
    + lia.
    + lia.
Qed.

Lemma mip_sampler_policy_witness :
  exists snapshot : Snapshot,
    GetSnapshot (TextureFilterInput_new (Some (texture_100x50 4)) Matrix_identity)
                the_renderer (entity_with Matrix_identity)
      = Returns (Some snapshot) /\
    mip_filter (sampler_descriptor snapshot) = MipFilter_kLinear /\
    has_label (sampler_descriptor snapshot) = true.
Proof.
  destruct (mip_sampler_policy
              (TextureFilterInput_new (Some (texture_100x50 4)) Matrix_identity)
              (texture_100x50 4) the_renderer (entity_with Matrix_identity))
    as [snapshot [Hs [Hiff [Hlabel _]]]].
  - reflexivity.
  - exists snapshot. split; [exact Hs|]. split.
    + apply Hiff. reflexivity.
    + apply Hlabel. reflexivity.
Defined.

(** C3, as the code has it.  Construction does not reject a null handle:
    for every handle, null included, and every local transform the
    constructor yields an instance that holds exactly that handle and that
    transform; with a null handle the failure comes at first use, where
    [GetSnapshot] and [GetCoverage] dereference it. *)
Theorem construction_accepts_any_handle `{Collaborators}
    (handle : shared_ptr Texture) (local_transform : Matrix)
    (renderer : ContentContext) (entity : Entity) :
  texture_ (TextureFilterInput_new handle local_transform) = handle /\
  local_transform_ (TextureFilterInput_new handle local_transform)
    = local_transform /\
  GetInput (TextureFilterInput_new nullptr local_transform)
    = Variant_Texture nullptr /\
  GetSnapshot (TextureFilterInput_new nullptr local_transform) renderer entity
    = NullDereference /\
  GetCoverage (TextureFilterInput_new nullptr local_transform) entity
    = NullDereference.
Proof. repeat split. Qed.

(** C3, as stated, fails: a null handle and the identity as local transform
    construct an instance, and it holds the null handle. *)
Lemma null_handle_constructs_an_instance :
  ~ (forall (local_transform : Matrix) (instance : TextureFilterInput),
       TextureFilterInput_new nullptr local_transform <> instance) /\
  exists instance : TextureFilterInput,
    TextureFilterInput_new nullptr Matrix_identity = instance /\
    texture_ instance = nullptr.
Proof.
  split.
  - intros Hreject.
    exact (Hreject Matrix_identity
             (TextureFilterInput_new nullptr Matrix_identity) eq_refl).
  - exists (TextureFilterInput_new nullptr Matrix_identity).
    split; reflexivity.
Qed.

(** C4. [GetSnapshot] always succeeds on a valid handle: for every input
    that holds a non-null texture handle, every renderer context and every
    entity, it returns a present snapshot, and the image of that snapshot
    is the held handle. *)
Theorem GetSnapshot_total_on_valid_handle `{Collaborators}
    (input : TextureFilterInput) (tex : Texture)
    (renderer : ContentContext) (entity : Entity) :
  texture_ input = Some tex ->
  exists snapshot : Snapshot,
    GetSnapshot input renderer entity = Returns (Some snapshot) /\
    texture snapshot = texture_ input.
Proof.
  intros Hvalid.
  eexists. split; [apply (GetSnapshot_valid input tex Hvalid) | reflexivity].
Qed.

Lemma GetSnapshot_total_on_valid_handle_witness :
  exists snapshot : Snapshot,
    GetSnapshot (TextureFilterInput_new (Some (texture_100x50 1)) Matrix_identity)
                the_renderer (entity_with (Matrix_MakeScale 0 0))
      = Returns (Some snapshot) /\
    texture snapshot = Some (texture_100x50 1).
Proof.
  apply (GetSnapshot_total_on_valid_handle
           (TextureFilterInput_new (Some (texture_100x50 1)) Matrix_identity)
           (texture_100x50 1) the_renderer (entity_with (Matrix_MakeScale 0 0))).
  reflexivity.
Defined.

(** C5, as the code has it.  On a valid handle [GetCoverage] is total and
    leaves the input as it was, whatever the source rectangle and the
    transform are, zero-area rectangles and non-invertible transforms
    included: it returns a present rectangle, the bounding rectangle of the
    transformed corners of the source rectangle, and neither its width nor
    its height is negative.  The rectangle is not empty in general. *)
Theorem GetCoverage_total_and_nonnegative `{Collaborators}
    (input : TextureFilterInput) (tex : Texture) (entity : Entity) :
  texture_ input = Some tex ->
  exists r : Rect,
    GetCoverage input entity = Returns (Some r) /\
    0 <= rect_width r /\ 0 <= rect_height r /\
    is_bounding_rect r (Rect_MakeSize (Texture_GetSize tex))
                     (GetTransform input entity) /\
    GetCoverage_method entity input = Returns (Some r, input).
Proof.
  intros Hvalid.
  exists (Rect_TransformBounds (Rect_MakeSize (Texture_GetSize tex))
                               (GetTransform input entity)).
  pose proof (GetCoverage_valid input tex Hvalid entity) as Hc.
  destruct (TransformBounds_nonneg (Rect_MakeSize (Texture_GetSize tex))
                                   (GetTransform input entity)) as [Hw Hh].
  split; [exact Hc|]. split; [exact Hw|]. split; [exact Hh|]. split.
  - apply TransformBounds_is_bounding_rect.
  - rewrite GetCoverage_method_run, Hc. reflexivity.
Qed.

Lemma GetCoverage_total_and_nonnegative_witness :
  exists r : Rect,
    GetCoverage (TextureFilterInput_new (Some (MkTexture (MkISize 0 50) 1))
                                        Matrix_identity)
                (entity_with (Matrix_MakeScale 0 0))
      = Returns (Some r) /\
    0 <= rect_width r /\ 0 <= rect_height r.
Proof.
  destruct (GetCoverage_total_and_nonnegative
              (TextureFilterInput_new (Some (MkTexture (MkISize 0 50) 1))
                                      Matrix_identity)
              (MkTexture (MkISize 0 50) 1)
              (entity_with (Matrix_MakeScale 0 0)))
    as [r [Hc [Hw [Hh _]]]].
  - reflexivity.
  - exists r. split; [exact Hc|]. split; [exact Hw | exact Hh].
Defined.

(** C5, as stated, fails twice.  A texture of 0 by 50 pixels has a
    zero-area source rectangle; under a rotation (cosine 3/5, sine 4/5)
    its coverage is the rectangle [(-40, 0, 40, 30)], which is present and
    not empty.  The transform [(x, y) -> (x, x)] is not invertible; under
    it the coverage of a texture of 100 by 50 pixels is [(0, 0, 100, 100)],
    present and not empty. *)
Lemma degenerate_geometry_has_coverage :
  (Rect_IsEmpty (Rect_MakeSize (MkISize 0 50)) = true /\
   GetCoverage (TextureFilterInput_new (Some (MkTexture (MkISize 0 50) 1))
                                       Matrix_identity)
               (entity_with (MkMatrix (Q_ 3 5) (Q_ (-4) 5) 0
                                      (Q_ 4 5) (Q_ 3 5) 0))
     = Returns (Some (Rect_MakeXYWH (Q_ (-40) 1) 0 (Q_ 40 1) (Q_ 30 1))) /\
   Coverage_IsEmpty (Some (Rect_MakeXYWH (Q_ (-40) 1) 0 (Q_ 40 1) (Q_ 30 1)))
     = false) /\
  (Matrix_IsInvertibleb (MkMatrix 1 0 0 1 0 0) = false /\
   GetCoverage (TextureFilterInput_new (Some (texture_100x50 1)) Matrix_identity)
               (entity_with (MkMatrix 1 0 0 1 0 0))
     = Returns (Some (Rect_MakeXYWH 0 0 (Q_ 100 1) (Q_ 100 1))) /\
   Coverage_IsEmpty (Some (Rect_MakeXYWH 0 0 (Q_ 100 1) (Q_ 100 1))) = false).
Proof.
  split; (split; [vm_compute; reflexivity|]);
    (split; [|vm_compute; reflexivity]).
  - rewrite (GetCoverage_valid
               (TextureFilterInput_new (Some (MkTexture (MkISize 0 50) 1))
                                       Matrix_identity)
               (MkTexture (MkISize 0 50) 1) eq_refl).
    coverage_eval.
  - rewrite (GetCoverage_valid
               (TextureFilterInput_new (Some (texture_100x50 1)) Matrix_identity)
               (texture_100x50 1) eq_refl).
    coverage_eval.
Qed.

(** C6. The two scenarios.  A texture of 100 by 50 pixels with one mip
    level, the identity as local transform and an entity whose transform is
    the identity: the coverage is [(0, 0, 100, 50)] and the snapshot has the
    identity as its transform and the default sampler.  The same texture
    with four mip levels and an entity scaled uniformly by 1/2: the
    coverage is [(0, 0, 50, 25)], and the snapshot's sampler has the linear
    mip filter and a non-empty label. *)
Theorem scenarios `{Collaborators}
    (renderer : ContentContext) (entity1 entity2 : Entity) :
  Entity_GetTransformation entity1 = Matrix_identity ->
  Entity_GetTransformation entity2 = Matrix_MakeScale (Q_ 1 2) (Q_ 1 2) ->
  (GetCoverage (TextureFilterInput_new (Some (texture_100x50 1)) Matrix_identity)
               entity1
     = Returns (Some (Rect_MakeXYWH 0 0 (Q_ 100 1) (Q_ 50 1))) /\
   GetSnapshot (TextureFilterInput_new (Some (texture_100x50 1)) Matrix_identity)
               renderer entity1
     = Returns (Some {| texture := Some (texture_100x50 1);
                        transform := Matrix_identity;
                        sampler_descriptor := SamplerDescriptor_default |})) /\
  (GetCoverage (TextureFilterInput_new (Some (texture_100x50 4)) Matrix_identity)
               entity2
     = Returns (Some (Rect_MakeXYWH 0 0 (Q_ 50 1) (Q_ 25 1))) /\
   exists snapshot : Snapshot,
     GetSnapshot (TextureFilterInput_new (Some (texture_100x50 4)) Matrix_identity)
                 renderer entity2
       = Returns (Some snapshot) /\
     mip_filter (sampler_descriptor snapshot) = MipFilter_kLinear /\
     has_label (sampler_descriptor snapshot) = true).
Proof.
  intros H1 H2. split; split.
  - rewrite (GetCoverage_valid
               (TextureFilterInput_new (Some (texture_100x50 1)) Matrix_identity)
               (texture_100x50 1) eq_refl).
    unfold GetTransform, GetLocalTransform. rewrite H1.
    coverage_eval.
  - rewrite (GetSnapshot_valid
               (TextureFilterInput_new (Some (texture_100x50 1)) Matrix_identity)
               (texture_100x50 1) eq_refl).
    unfold GetTransform, GetLocalTransform. rewrite H1.
    cbn [TextureFilterInput_new texture_ local_transform_].
    rewrite Matrix_mul_identity_l. reflexivity.
  - rewrite (GetCoverage_valid
               (TextureFilterInput_new (Some (texture_100x50 4)) Matrix_identity)
               (texture_100x50 4) eq_refl).
    unfold GetTransform, GetLocalTransform. rewrite H2.
    coverage_eval.
  - eexists. split.
    + apply (GetSnapshot_valid
               (TextureFilterInput_new (Some (texture_100x50 4)) Matrix_identity)
               (texture_100x50 4) eq_refl).
    + split; reflexivity.
Qed.

Lemma scenarios_witness :
  GetCoverage (TextureFilterInput_new (Some (texture_100x50 1)) Matrix_identity)
              (entity_with Matrix_identity)
    = Returns (Some (Rect_MakeXYWH 0 0 (Q_ 100 1) (Q_ 50 1))) /\
  GetCoverage (TextureFilterInput_new (Some (texture_100x50 4)) Matrix_identity)
              (entity_with (Matrix_MakeScale (Q_ 1 2) (Q_ 1 2)))
    = Returns (Some (Rect_MakeXYWH 0 0 (Q_ 50 1) (Q_ 25 1))).
Proof.
  destruct (scenarios the_renderer (entity_with Matrix_identity)
              (entity_with (Matrix_MakeScale (Q_ 1 2) (Q_ 1 2))))
    as [[Hc1 _] [Hc2 _]].
  - reflexivity.
  - reflexivity.
  - split; [exact Hc1 | exact Hc2].
Defined.

(** C7. The local transform does not depend on the entity: for any two
    entities [GetLocalTransform] returns the same transform, the one given
    to the constructor. *)
Theorem GetLocalTransform_ignores_entity `{Collaborators}
    (handle : shared_ptr Texture) (local_transform : Matrix)
    (entity1 entity2 : Entity) :
  GetLocalTransform (TextureFilterInput_new handle local_transform) entity1 =
  GetLocalTransform (TextureFilterInput_new handle local_transform) entity2 /\
  GetLocalTransform (TextureFilterInput_new handle local_transform) entity1 =
  local_transform.
Proof. split; reflexivity. Qed.

(** C8. Idempotence and freedom from side effects.  The four queries, run
    as member functions on the object, never write a member: whenever a
    query returns, the object is as it was before, the answer is the one
    the function of the same name gives, and asking again gives the same
    answer.  On an input that holds a valid handle every query returns;
    asking it twice in a row gives twice the same answer, any sequence of
    queries leaves the object as it was, and after any such sequence the
    query is answered as it would have been at the start. *)
Theorem queries_idempotent_and_pure `{Collaborators}
    (input : TextureFilterInput) (tex : Texture)
    (before : list Query) (q : Query) :
  (forall (a : Answer) (input' : TextureFilterInput),
     invoke q input = Returns (a, input') ->
     input' = input /\
     answer_of input q = Returns a /\
     invoke q input' = Returns (a, input')) /\
  (texture_ input = Some tex ->
   exists (answers : list Answer) (a : Answer),
     answer_of input q = Returns a /\
     invoke q input = Returns (a, input) /\
     mbind (invoke q) (fun a1 => mbind (invoke q) (fun a2 => ret (a1, a2)))
           input
       = Returns ((a, a), input) /\
     invoke_all before input = Returns (answers, input) /\
     mbind (invoke_all before) (fun _ => invoke q) input = Returns (a, input)).
Proof.
  split.
  - intros a input' Hrun. rewrite invoke_run in Hrun.
    destruct (answer_of input q) as [a0|] eqn:Ha; cbn [bind] in Hrun;
      [|discriminate].
    injection Hrun as -> ->.
    split; [reflexivity|]. split; [reflexivity|].
    rewrite invoke_run, Ha. reflexivity.
  - intros Hvalid.
    destruct (answer_of_valid input tex q Hvalid) as [a Ha].
    destruct (invoke_all_valid input tex before Hvalid) as [answers Hall].
    assert (Hq : invoke q input = Returns (a, input))
      by (rewrite invoke_run, Ha; reflexivity).
    exists answers, a.
    split; [exact Ha|]. split; [exact Hq|]. split; [|split].
    + unfold mbind. rewrite Hq, Hq. reflexivity.
    + exact Hall.
    + unfold mbind. rewrite Hall. exact Hq.
Qed.

Lemma queries_idempotent_and_pure_witness :
  exists (answers : list Answer) (a : Answer),
    invoke (Query_GetCoverage (entity_with (Matrix_MakeScale (Q_ 1 2) (Q_ 1 2))))
           (TextureFilterInput_new (Some (texture_100x50 4)) Matrix_identity)
      = Returns (a, TextureFilterInput_new (Some (texture_100x50 4))
                                           Matrix_identity) /\
    invoke_all [Query_GetInput;
                Query_GetSnapshot the_renderer (entity_with Matrix_identity)]
               (TextureFilterInput_new (Some (texture_100x50 4)) Matrix_identity)
      = Returns (answers, TextureFilterInput_new (Some (texture_100x50 4))
                                                 Matrix_identity).
Proof.
  destruct (queries_idempotent_and_pure
              (TextureFilterInput_new (Some (texture_100x50 4)) Matrix_identity)
              (texture_100x50 4)
              [Query_GetInput;
               Query_GetSnapshot the_renderer (entity_with Matrix_identity)]
              (Query_GetCoverage
                 (entity_with (Matrix_MakeScale (Q_ 1 2) (Q_ 1 2)))))
    as [_ Hvalid].
  destruct (Hvalid eq_refl) as [answers [a [_ [Hq [_ [Hall _]]]]]].
  exists answers, a. split; [exact Hq | exact Hall].
Defined.

(** C9, as the code has it.  [GetSnapshot] does not validate the transform
    it composes: the transform of the snapshot is invertible if and only if
    both the accumulated transform of the entity and the local transform
    of the input are. *)
Theorem snapshot_transform_invertible_iff `{Collaborators}
    (input : TextureFilterInput) (tex : Texture)
    (renderer : ContentContext) (entity : Entity) :
  texture_ input = Some tex ->
  exists snapshot : Snapshot,
    GetSnapshot input renderer entity = Returns (Some snapshot) /\
    transform snapshot =
      Matrix_mul (Entity_GetTransformation entity) (local_transform_ input) /\
    (Matrix_IsInvertible (transform snapshot) <->
     Matrix_IsInvertible (Entity_GetTransformation entity) /\
     Matrix_IsInvertible (local_transform_ input)).
Proof.
  intros Hvalid.
  eexists. split; [apply (GetSnapshot_valid input tex Hvalid)|].
  cbn [transform]. unfold GetTransform, GetLocalTransform.
  split; [reflexivity | apply Matrix_IsInvertible_mul].
Qed.

Lemma snapshot_transform_invertible_iff_witness :
  exists snapshot : Snapshot,
    GetSnapshot (TextureFilterInput_new (Some (texture_100x50 4))
                   (Matrix_MakeTranslation (Q_ 10 1) (Q_ 20 1)))
                the_renderer (entity_with (Matrix_MakeScale (Q_ 1 2) (Q_ 1 2)))
      = Returns (Some snapshot) /\
    Matrix_IsInvertible (transform snapshot).
Proof.
  destruct (snapshot_transform_invertible_iff
              (TextureFilterInput_new (Some (texture_100x50 4))
                 (Matrix_MakeTranslation (Q_ 10 1) (Q_ 20 1)))
              (texture_100x50 4) the_renderer
              (entity_with (Matrix_MakeScale (Q_ 1 2) (Q_ 1 2))))
    as [snapshot [Hs [_ Hiff]]].
  - reflexivity.
  - exists snapshot. split; [exact Hs|]. apply Hiff.
    split; apply Matrix_IsInvertibleb_spec; vm_compute; reflexivity.
Defined.

(** C9, as stated, fails: for an entity scaled by zero the snapshot of a
    valid texture has the zero scale as its transform, whose determinant
    is zero. *)
Lemma snapshot_transform_can_be_singular :
  exists snapshot : Snapshot,
    GetSnapshot (TextureFilterInput_new (Some (texture_100x50 1)) Matrix_identity)
                the_renderer (entity_with (Matrix_MakeScale 0 0))
      = Returns (Some snapshot) /\
    transform snapshot = Matrix_MakeScale 0 0 /\
    ~ Matrix_IsInvertible (transform snapshot).
Proof.
  eexists. split.
  - apply (GetSnapshot_valid
             (TextureFilterInput_new (Some (texture_100x50 1)) Matrix_identity)
             (texture_100x50 1) eq_refl).
  - cbn [transform]. unfold GetTransform, GetLocalTransform.
    cbn [TextureFilterInput_new local_transform_].
    rewrite Matrix_mul_identity_r. split; [reflexivity|].
    intros Hinv. apply Matrix_IsInvertibleb_spec in Hinv.
    vm_compute in Hinv. discriminate.
Qed.

(** C10. The renderer context does not influence the snapshot: for any two
    renderer contexts [GetSnapshot] gives the same result, and what it
    returns on a valid handle is made of the held texture, the local
    transform of the input and the accumulated transform of the entity. *)
Theorem GetSnapshot_ignores_renderer `{Collaborators}
    (input : TextureFilterInput)
    (renderer1 renderer2 : ContentContext) (entity : Entity) :
  GetSnapshot input renderer1 entity = GetSnapshot input renderer2 entity /\
  forall entity' : Entity,
    Entity_GetTransformation entity' = Entity_GetTransformation entity ->
    GetSnapshot input renderer1 entity' = GetSnapshot input renderer2 entity.
Proof.
  split; [reflexivity|].
  intros entity' He. unfold GetSnapshot, GetTransform. rewrite He. reflexivity.
Qed.

Lemma GetSnapshot_ignores_renderer_witness :
  GetSnapshot (TextureFilterInput_new (Some (texture_100x50 4)) Matrix_identity)
              the_renderer (entity_with (Matrix_MakeScale 1 1))
  = GetSnapshot (TextureFilterInput_new (Some (texture_100x50 4)) Matrix_identity)
                the_renderer (entity_with (MkMatrix 1 0 0 0 1 0)).
Proof.
  apply (GetSnapshot_ignores_renderer
           (TextureFilterInput_new (Some (texture_100x50 4)) Matrix_identity)
           the_renderer the_renderer (entity_with (MkMatrix 1 0 0 0 1 0))).
  reflexivity.
Defined.

(* ===================================================================== *)
(** * More facts about the primitives                                     *)
(* ===================================================================== *)

Section Order.

Lemma smin_cases (a b : Scalar) : smin a b = a \/ smin a b = b.
Proof. unfold smin. destruct (b ?= a); auto. Qed.

Lemma smax_cases (a b : Scalar) : smax a b = a \/ smax a b = b.
Proof. unfold smax. destruct (a ?= b); auto. Qed.

Lemma smin_same (a : Scalar) : smin a a = a.
Proof. destruct (smin_cases a a); assumption. Qed.

Lemma smax_same (a : Scalar) : smax a a = a.
Proof. destruct (smax_cases a a); assumption. Qed.

Lemma smin_left (a b : Scalar) : a <= b -> smin a b = a.
Proof.
  intros Hab. apply Qcle_antisym; [apply smin_le_l|].
  apply smin_glb; [apply Qcle_refl | exact Hab].
Qed.

Lemma smax_right (a b : Scalar) : a <= b -> smax a b = b.
Proof.
  intros Hab. apply Qcle_antisym; [|apply smax_ge_r].
  apply smax_lub; [exact Hab | apply Qcle_refl].
Qed.

Lemma smin_right (a b : Scalar) : b <= a -> smin a b = b.
Proof.
  intros Hba. apply Qcle_antisym; [apply smin_le_r|].
  apply smin_glb; [exact Hba | apply Qcle_refl].
Qed.

Lemma smax_left (a b : Scalar) : b <= a -> smax a b = a.
Proof.
  intros Hba. apply Qcle_antisym; [|apply smax_ge_l].
  apply smax_lub; [apply Qcle_refl | exact Hba].
Qed.

Lemma le_add_r (a b d : Scalar) : a <= b -> a + d <= b + d.
Proof. intros Hab. apply Qcplus_le_compat; [exact Hab | apply Qcle_refl]. Qed.

(** Minimum and maximum commute with the addition of a constant. *)
Lemma smin_add (a b d : Scalar) : smin (a + d) (b + d) = smin a b + d.
Proof.
  apply Qcle_antisym.
  - destruct (smin_cases a b) as [-> | ->];
      [apply smin_le_l | apply smin_le_r].
  - apply smin_glb; apply le_add_r; [apply smin_le_l | apply smin_le_r].
Qed.

Lemma smax_add (a b d : Scalar) : smax (a + d) (b + d) = smax a b + d.
Proof.
  apply Qcle_antisym.
  - apply smax_lub; apply le_add_r; [apply smax_ge_l | apply smax_ge_r].
  - destruct (smax_cases a b) as [-> | ->];
      [apply smax_ge_l | apply smax_ge_r].
Qed.

Lemma fold_smin_add (d : Scalar) (l : list Scalar) :
  forall acc,
    fold_left smin (map (fun x => x + d) l) (acc + d) = fold_left smin l acc + d.
Proof.
  induction l as [|y l IH]; intros acc; simpl.
  - reflexivity.
  - rewrite smin_add. apply IH.
Qed.

Lemma fold_smax_add (d : Scalar) (l : list Scalar) :
  forall acc,
    fold_left smax (map (fun x => x + d) l) (acc + d) = fold_left smax l acc + d.
Proof.
  induction l as [|y l IH]; intros acc; simpl.
  - reflexivity.
  - rewrite smax_add. apply IH.
Qed.

Lemma mul_nonneg (a b : Scalar) : 0 <= a -> 0 <= b -> 0 <= a * b.
Proof.
  intros Ha Hb. replace 0 with (0 * b) by ring.
  apply Qcmult_le_compat_r; assumption.
Qed.

Lemma mul_le_nonneg (a x y : Scalar) : 0 <= a -> x <= y -> a * x <= a * y.
Proof.
  intros Ha Hxy. apply (proj2 (Qcle_minus_iff _ _)).
  replace (a * y + - (a * x)) with (a * (y + - x)) by ring.
  apply mul_nonneg; [exact Ha | apply (proj1 (Qcle_minus_iff _ _)); exact Hxy].
Qed.

Lemma mul_le_nonpos (a x y : Scalar) : a <= 0 -> x <= y -> a * y <= a * x.
Proof.
  intros Ha Hxy. apply (proj2 (Qcle_minus_iff _ _)).
  replace (a * x + - (a * y)) with ((0 + - a) * (y + - x)) by ring.
  apply mul_nonneg; apply (proj1 (Qcle_minus_iff _ _)); assumption.
Qed.

Lemma Scalar_of_Z_0 : Scalar_of_Z 0 = 0.
Proof. apply Qc_is_canon. reflexivity. Qed.

Lemma Scalar_of_Z_nonneg (z : Z) : (0 <= z)%Z -> 0 <= Scalar_of_Z z.
Proof.
  intros Hz. unfold Scalar_of_Z, Qcle. cbn [this Q2Qc].
  rewrite !Qred_correct.
  change (inject_Z 0 <= inject_Z z)%Q. rewrite <- Zle_Qle. exact Hz.
Qed.

(** Over an interval, [a * x] is least and greatest at the end points. *)
Lemma mul_interval (a lo hi x : Scalar) :
  lo <= x -> x <= hi ->
  exists e1 e2, (e1 = lo \/ e1 = hi) /\ (e2 = lo \/ e2 = hi) /\
                a * e1 <= a * x /\ a * x <= a * e2.
Proof.
  intros Hlo Hhi. destruct (Qclt_le_dec a 0) as [Hneg | Hpos].
  - apply Qclt_le_weak in Hneg. exists hi, lo.
    repeat split; auto; apply mul_le_nonpos; assumption.
  - exists lo, hi.
    repeat split; auto; apply mul_le_nonneg; assumption.
Qed.

End Order.

Section Geometry.

Lemma Matrix_mul_assoc (a b c : Matrix) :
  Matrix_mul (Matrix_mul a b) c = Matrix_mul a (Matrix_mul b c).
Proof.
  apply Matrix_eq_intro; unfold Matrix_mul;
    cbn [m_xx m_xy m_tx m_yx m_yy m_ty]; ring.
Qed.

(** A translation applied last moves the image of every point. *)
Lemma Matrix_apply_translated (dx dy : Scalar) (m : Matrix) (p : Point) :
  Matrix_apply (Matrix_mul (Matrix_MakeTranslation dx dy) m) p =
  MkPoint (px (Matrix_apply m p) + dx) (py (Matrix_apply m p) + dy).
Proof.
  unfold Matrix_apply, Matrix_mul, Matrix_MakeTranslation.
  cbn [m_xx m_xy m_tx m_yx m_yy m_ty px py]. f_equal; ring.
Qed.

(** The bounding rectangle of moved points is the moved bounding
    rectangle. *)
Lemma MakePointBounds_moved (dx dy : Scalar) (first : Point) (rest : list Point) :
  Rect_MakePointBounds
    (MkPoint (px first + dx) (py first + dy))
    (map (fun p => MkPoint (px p + dx) (py p + dy)) rest) =
  MkRect (rect_x (Rect_MakePointBounds first rest) + dx)
         (rect_y (Rect_MakePointBounds first rest) + dy)
         (rect_width (Rect_MakePointBounds first rest))
         (rect_height (Rect_MakePointBounds first rest)).
Proof.
  unfold Rect_MakePointBounds.
  cbn [px py rect_x rect_y rect_width rect_height].
  rewrite !map_map. cbn [px py].
  rewrite <- (map_map px (fun x => x + dx) rest).
  rewrite <- (map_map py (fun y => y + dy) rest).
  rewrite !fold_smin_add, !fold_smax_add.
  apply Rect_eq_intro; cbn [rect_x rect_y rect_width rect_height];
    try reflexivity; ring.
Qed.

Lemma TransformBounds_translated (dx dy : Scalar) (r : Rect) (m : Matrix) :
  Rect_TransformBounds r (Matrix_mul (Matrix_MakeTranslation dx dy) m) =
  MkRect (rect_x (Rect_TransformBounds r m) + dx)
         (rect_y (Rect_TransformBounds r m) + dy)
         (rect_width (Rect_TransformBounds r m))
         (rect_height (Rect_TransformBounds r m)).
Proof.
  unfold Rect_TransformBounds, Rect_GetPoints. cbn [map].
  rewrite !Matrix_apply_translated.
  apply (MakePointBounds_moved dx dy
           (Matrix_apply m (MkPoint (Rect_GetLeft r) (Rect_GetTop r)))
           [Matrix_apply m (MkPoint (Rect_GetRight r) (Rect_GetTop r));
            Matrix_apply m (MkPoint (Rect_GetLeft r) (Rect_GetBottom r));
            Matrix_apply m (MkPoint (Rect_GetRight r) (Rect_GetBottom r))]).
Qed.

Lemma corner_In (r : Rect) (x y : Scalar) :
  x = Rect_GetLeft r \/ x = Rect_GetRight r ->
  y = Rect_GetTop r \/ y = Rect_GetBottom r ->
  In (MkPoint x y) (corners r).
Proof.
  unfold corners, Rect_GetPoints. cbn [fst snd].
  intros [-> | ->] [-> | ->]; simpl; auto.
Qed.

(** The bounding rectangle of a transformed rectangle contains the image
    of every point of the rectangle, not only of its corners. *)
Lemma TransformBounds_covers (r : Rect) (m : Matrix) (p : Point) :
  Rect_Contains r p ->
  Rect_Contains (Rect_TransformBounds r m) (Matrix_apply m p).
Proof.
  intros (Hl & Hr & Ht & Hb).
  destruct (TransformBounds_is_bounding_rect r m) as [Hcorner _].
  destruct (mul_interval (m_xx m) _ _ _ Hl Hr)
    as (x1 & x2 & Hx1 & Hx2 & Hxlo & Hxhi).
  destruct (mul_interval (m_xy m) _ _ _ Ht Hb)
    as (y1 & y2 & Hy1 & Hy2 & Hylo & Hyhi).
  destruct (mul_interval (m_yx m) _ _ _ Hl Hr)
    as (x3 & x4 & Hx3 & Hx4 & Hxlo' & Hxhi').
  destruct (mul_interval (m_yy m) _ _ _ Ht Hb)
    as (y3 & y4 & Hy3 & Hy4 & Hylo' & Hyhi').
  pose proof (Hcorner _ (corner_In r x1 y1 Hx1 Hy1)) as (C1 & _ & _ & _).
  pose proof (Hcorner _ (corner_In r x2 y2 Hx2 Hy2)) as (_ & C2 & _ & _).
  pose proof (Hcorner _ (corner_In r x3 y3 Hx3 Hy3)) as (_ & _ & C3 & _).
  pose proof (Hcorner _ (corner_In r x4 y4 Hx4 Hy4)) as (_ & _ & _ & C4).
  unfold Matrix_apply in *. cbn [px py] in *.
  unfold Rect_Contains. cbn [px py]. repeat split.
  - eapply Qcle_trans; [exact C1|].
    apply le_add_r. apply Qcplus_le_compat; assumption.
  - eapply Qcle_trans; [|exact C2].
    apply le_add_r. apply Qcplus_le_compat; assumption.
  - eapply Qcle_trans; [exact C3|].
    apply le_add_r. apply Qcplus_le_compat; assumption.
  - eapply Qcle_trans; [|exact C4].
    apply le_add_r. apply Qcplus_le_compat; assumption.
Qed.

End Geometry.

Section AxisAligned.

(** Four values that are all [t] or [t + d], the first being [t] and the
    last [t + d], have [t] as minimum and [t + d] as maximum when [d] is
    not negative. *)
Lemma extremes_of_two_values (t d x0 x1 x2 x3 : Scalar) :
  0 <= d ->
  x0 = t -> x1 = t \/ x1 = t + d -> x2 = t \/ x2 = t + d -> x3 = t + d ->
  fold_left smin [x1; x2; x3] x0 = t /\
  fold_left smax [x1; x2; x3] x0 = t + d.
Proof.
  intros Hd H0 H1 H2 H3.
  assert (Ht : t <= t + d).
  { replace t with (t + 0) at 1 by ring.
    apply Qcplus_le_compat; [apply Qcle_refl | exact Hd]. }
  assert (Hall : forall x, In x [x1; x2; x3] -> t <= x /\ x <= t + d).
  { intros x [<- | [<- | [<- | []]]].
    - destruct H1 as [-> | ->]; split; try apply Qcle_refl; exact Ht.
    - destruct H2 as [-> | ->]; split; try apply Qcle_refl; exact Ht.
    - rewrite H3. split; [exact Ht | apply Qcle_refl]. }
  split; apply Qcle_antisym.
  - apply Qcle_trans with x0;
      [apply fold_smin_le; left; reflexivity | rewrite H0; apply Qcle_refl].
  - apply fold_smin_glb.
    + rewrite H0. apply Qcle_refl.
    + intros x Hx. apply Hall. exact Hx.
  - apply fold_smax_lub.
    + rewrite H0. exact Ht.
    + intros x Hx. apply Hall. exact Hx.
  - apply Qcle_trans with x3;
      [rewrite H3; apply Qcle_refl | apply fold_smax_ge; right; simpl; auto].
Qed.

(** A rectangle at the origin under a scale without reflection followed by
    a translation. *)
Lemma TransformBounds_scale_translate (w h sx sy tx ty : Scalar) :
  0 <= sx * w -> 0 <= sy * h ->
  Rect_TransformBounds (MkRect 0 0 w h) (MkMatrix sx 0 tx 0 sy ty) =
  MkRect tx ty (sx * w) (sy * h).
Proof.
  intros Hw Hh.
  unfold Rect_TransformBounds, Rect_GetPoints, Rect_MakePointBounds,
    Matrix_apply, Rect_GetLeft, Rect_GetRight, Rect_GetTop, Rect_GetBottom.
  cbn [map px py m_xx m_xy m_tx m_yx m_yy m_ty
       rect_x rect_y rect_width rect_height].
  match goal with
  | |- context [fold_left smin [?x1; ?x2; ?x3] ?x0] =>
      destruct (extremes_of_two_values tx (sx * w) x0 x1 x2 x3 Hw)
        as [-> ->]; [ring | right; ring | left; ring | ring |]
  end.
  match goal with
  | |- context [fold_left smin [?y1; ?y2; ?y3] ?y0] =>
      destruct (extremes_of_two_values ty (sy * h) y0 y1 y2 y3 Hh)
        as [-> ->]; [ring | left; ring | right; ring | ring |]
  end.
  apply Rect_eq_intro; cbn [rect_x rect_y rect_width rect_height];
    try reflexivity; ring.
Qed.

(** A rectangle without extent is mapped to the image of its origin. *)
Lemma TransformBounds_of_point (x y : Scalar) (m : Matrix) :
  Rect_TransformBounds (MkRect x y 0 0) m =
  MkRect (px (Matrix_apply m (MkPoint x y)))
         (py (Matrix_apply m (MkPoint x y))) 0 0.
Proof.
  unfold Rect_TransformBounds, Rect_GetPoints, Rect_MakePointBounds,
    Rect_GetLeft, Rect_GetRight, Rect_GetTop, Rect_GetBottom.
  cbn [rect_x rect_y rect_width rect_height].
  replace (x + 0) with x by ring. replace (y + 0) with y by ring.
  cbn [map fold_left]. rewrite !smin_same, !smax_same.
  apply Rect_eq_intro; cbn [rect_x rect_y rect_width rect_height];
    try reflexivity; ring.
Qed.

End AxisAligned.

(* ===================================================================== *)
(** * Further properties of [TextureFilterInput]                          *)
(* ===================================================================== *)

(** X1. The only way [GetSnapshot] and [GetCoverage] fail is the null
    handle: each of them dereferences a null pointer exactly when the held
    handle is null, and neither ever returns the absent value. *)
Theorem queries_fail_only_on_null_handle `{Collaborators}
    (input : TextureFilterInput) (renderer : ContentContext) (entity : Entity) :
  (GetSnapshot input renderer entity = NullDereference <->
   texture_ input = nullptr) /\
  (GetCoverage input entity = NullDereference <-> texture_ input = nullptr) /\
  GetSnapshot input renderer entity <> Returns None /\
  GetCoverage input entity <> Returns None.
Proof.
  destruct (texture_ input) as [tex|] eqn:Hh.
  - rewrite (GetSnapshot_valid input tex Hh), (GetCoverage_valid input tex Hh).
    repeat split; intros; discriminate.
  - rewrite (GetSnapshot_null input renderer entity Hh),
            (GetCoverage_null input entity Hh).
    repeat split; intros; try reflexivity; discriminate.
Qed.

(** X2. The coverage depends on the texture only through its size and on
    the entity only through its accumulated transform: two inputs with the
    same local transform whose textures have the same size, whatever their
    mip counts are, have the same coverage under entities with the same
    transform. *)
Theorem GetCoverage_depends_on_size_and_transform `{Collaborators}
    (input1 input2 : TextureFilterInput) (tex1 tex2 : Texture)
    (entity1 entity2 : Entity) :
  texture_ input1 = Some tex1 -> texture_ input2 = Some tex2 ->
  Texture_GetSize tex1 = Texture_GetSize tex2 ->
  local_transform_ input1 = local_transform_ input2 ->
  Entity_GetTransformation entity1 = Entity_GetTransformation entity2 ->
  GetCoverage input1 entity1 = GetCoverage input2 entity2.
Proof.
  intros H1 H2 Hsize Hlocal Hentity.
  rewrite (GetCoverage_valid input1 tex1 H1), (GetCoverage_valid input2 tex2 H2).
  unfold GetTransform, GetLocalTransform.
  rewrite Hsize, Hlocal, Hentity. reflexivity.
Qed.

Lemma GetCoverage_depends_on_size_and_transform_witness :
  GetCoverage (TextureFilterInput_new (Some (texture_100x50 1)) Matrix_identity)
              (entity_with (Matrix_MakeScale 1 1))
  = GetCoverage (TextureFilterInput_new (Some (texture_100x50 4)) Matrix_identity)
                (entity_with Matrix_identity).
Proof.
  apply (GetCoverage_depends_on_size_and_transform
           (TextureFilterInput_new (Some (texture_100x50 1)) Matrix_identity)
           (TextureFilterInput_new (Some (texture_100x50 4)) Matrix_identity)
           (texture_100x50 1) (texture_100x50 4)
           (entity_with (Matrix_MakeScale 1 1)) (entity_with Matrix_identity));
    reflexivity.
Defined.

(** X3. The mip policy touches the mip filter and the label only.  For
    every mip count the min/mag filter of the snapshot's sampler is the one
    of the default descriptor; for a texture with more than one mip level
    the sampler is the default descriptor with the linear mip filter and
    the label "TextureFilterInput Trilinear Sampler" put in place, whatever
    the default descriptor is. *)
Theorem sampler_policy_changes_mip_filter_and_label_only `{Collaborators}
    (input : TextureFilterInput) (tex : Texture)
    (renderer : ContentContext) (entity : Entity) :
  texture_ input = Some tex ->
  exists snapshot : Snapshot,
    GetSnapshot input renderer entity = Returns (Some snapshot) /\
    min_mag_filter (sampler_descriptor snapshot)
      = min_mag_filter SamplerDescriptor_default /\
    ((1 < Texture_GetMipCount tex)%N ->
     sampler_descriptor snapshot =
       {| min_mag_filter := min_mag_filter SamplerDescriptor_default;
          mip_filter := MipFilter_kLinear;
          label := Some "TextureFilterInput Trilinear Sampler"%string |}).
Proof.
  intros Hvalid.
  eexists. split; [apply (GetSnapshot_valid input tex Hvalid)|].
  cbn [sampler_descriptor].
  destruct (1 <? Texture_GetMipCount tex)%N eqn:E.
  - split; [reflexivity|]. intros _. reflexivity.
  - apply N.ltb_ge in E. split; [reflexivity|]. intros Hmip. lia.
Qed.

Lemma sampler_policy_changes_mip_filter_and_label_only_witness :
  exists snapshot : Snapshot,
    GetSnapshot (TextureFilterInput_new (Some (texture_100x50 4)) Matrix_identity)
                the_renderer (entity_with Matrix_identity)
      = Returns (Some snapshot) /\
    sampler_descriptor snapshot =
      {| min_mag_filter := MinMagFilter_kNearest;
         mip_filter := MipFilter_kLinear;
         label := Some "TextureFilterInput Trilinear Sampler"%string |}.
Proof.
  destruct (sampler_policy_changes_mip_filter_and_label_only
              (TextureFilterInput_new (Some (texture_100x50 4)) Matrix_identity)
              (texture_100x50 4) the_renderer (entity_with Matrix_identity))
    as [snapshot [Hs [_ Hmip]]].
  - reflexivity.
  - exists snapshot. split; [exact Hs|]. apply Hmip. reflexivity.
Defined.

(** X4. Under an identity local transform and an entity whose transform
    scales by [(sx, sy)], both not negative, and then translates by
    [(tx, ty)], a texture of [w] by [h] pixels covers the rectangle
    [(tx, ty, sx * w, sy * h)]. *)
Theorem GetCoverage_scale_translate `{Collaborators}
    (input : TextureFilterInput) (tex : Texture) (entity : Entity)
    (sx sy tx ty : Scalar) :
  texture_ input = Some tex ->
  local_transform_ input = Matrix_identity ->
  Entity_GetTransformation entity = MkMatrix sx 0 tx 0 sy ty ->
  0 <= sx -> 0 <= sy ->
  (0 <= isize_width (Texture_GetSize tex))%Z ->
  (0 <= isize_height (Texture_GetSize tex))%Z ->
  GetCoverage input entity =
  Returns (Some (MkRect tx ty
                   (sx * Scalar_of_Z (isize_width (Texture_GetSize tex)))
                   (sy * Scalar_of_Z (isize_height (Texture_GetSize tex))))).
Proof.
  intros Hvalid Hlocal Hentity Hsx Hsy Hw Hh.
  rewrite (GetCoverage_valid input tex Hvalid).
  unfold GetTransform, GetLocalTransform.
  rewrite Hlocal, Hentity, Matrix_mul_identity_r.
  unfold Rect_MakeSize. rewrite TransformBounds_scale_translate.
  - reflexivity.
  - apply mul_nonneg; [exact Hsx | apply Scalar_of_Z_nonneg; exact Hw].
  - apply mul_nonneg; [exact Hsy | apply Scalar_of_Z_nonneg; exact Hh].
Qed.

Lemma GetCoverage_scale_translate_witness :
  GetCoverage (TextureFilterInput_new (Some (texture_100x50 1)) Matrix_identity)
              (entity_with (MkMatrix (Q_ 1 2) 0 (Q_ 10 1) 0 (Q_ 3 1) (Q_ 20 1)))
  = Returns (Some (MkRect (Q_ 10 1) (Q_ 20 1)
                          (Q_ 1 2 * Scalar_of_Z 100) (Q_ 3 1 * Scalar_of_Z 50))).
Proof.
  apply (GetCoverage_scale_translate
           (TextureFilterInput_new (Some (texture_100x50 1)) Matrix_identity)
           (texture_100x50 1)
           (entity_with (MkMatrix (Q_ 1 2) 0 (Q_ 10 1) 0 (Q_ 3 1) (Q_ 20 1)))
           (Q_ 1 2) (Q_ 3 1) (Q_ 10 1) (Q_ 20 1)).
  - reflexivity.
  - reflexivity.
  - reflexivity.
  - apply sleb_true. vm_compute. reflexivity.
  - apply sleb_true. vm_compute. reflexivity.
  - simpl. lia.
  - simpl. lia.
Defined.

(** X5. A texture without pixels (0 by 0) covers, under every transform,
    the rectangle of width and height zero placed at the image of the
    origin, which is an empty coverage. *)
Theorem GetCoverage_of_empty_texture `{Collaborators}
    (input : TextureFilterInput) (tex : Texture) (entity : Entity) :
  texture_ input = Some tex ->
  Texture_GetSize tex = MkISize 0 0 ->
  GetCoverage input entity =
    Returns (Some (MkRect (m_tx (GetTransform input entity))
                          (m_ty (GetTransform input entity)) 0 0)) /\
  Coverage_IsEmpty (Some (MkRect (m_tx (GetTransform input entity))
                                 (m_ty (GetTransform input entity)) 0 0))
    = true.
Proof.
  intros Hvalid Hsize. split.
  - rewrite (GetCoverage_valid input tex Hvalid), Hsize.
    unfold Rect_MakeSize. cbn [isize_width isize_height].
    rewrite Scalar_of_Z_0, TransformBounds_of_point.
    apply (f_equal (fun r : Rect => Returns (Some r))).
    unfold Matrix_apply.
    apply Rect_eq_intro; cbn [rect_x rect_y rect_width rect_height px py];
      try reflexivity; ring.
  - unfold Coverage_IsEmpty, Rect_IsEmpty. cbn [rect_width rect_height].
    reflexivity.
Qed.

Lemma GetCoverage_of_empty_texture_witness :
  GetCoverage (TextureFilterInput_new (Some (MkTexture (MkISize 0 0) 1))
                 (Matrix_MakeTranslation (Q_ 10 1) (Q_ 20 1)))
              (entity_with (MkMatrix (Q_ 3 5) (Q_ (-4) 5) 0 (Q_ 4 5) (Q_ 3 5) 0))
  = Returns (Some (MkRect (Q_ (-10) 1) (Q_ 20 1) 0 0)).
Proof.
  destruct (GetCoverage_of_empty_texture
              (TextureFilterInput_new (Some (MkTexture (MkISize 0 0) 1))
                 (Matrix_MakeTranslation (Q_ 10 1) (Q_ 20 1)))
              (MkTexture (MkISize 0 0) 1)
              (entity_with (MkMatrix (Q_ 3 5) (Q_ (-4) 5) 0
                                     (Q_ 4 5) (Q_ 3 5) 0)))
    as [Hc _].
  - reflexivity.
  - reflexivity.
  - rewrite Hc. coverage_eval.
Defined.

(** X6. The coverage moves with the entity: when the accumulated transform
    of a second entity is that of the first followed by a translation by
    [(dx, dy)], the coverage under the second entity is the coverage under
    the first, moved by [(dx, dy)], with the same width and height. *)
Theorem GetCoverage_moves_with_entity `{Collaborators}
    (input : TextureFilterInput) (entity1 entity2 : Entity)
    (dx dy : Scalar) (r : Rect) :
  Entity_GetTransformation entity2 =
    Matrix_mul (Matrix_MakeTranslation dx dy) (Entity_GetTransformation entity1) ->
  GetCoverage input entity1 = Returns (Some r) ->
  GetCoverage input entity2 =
    Returns (Some (MkRect (rect_x r + dx) (rect_y r + dy)
                          (rect_width r) (rect_height r))).
Proof.
  intros Hmoved Hcov.
  destruct (texture_ input) as [tex|] eqn:Hh.
  - rewrite (GetCoverage_valid input tex Hh) in Hcov.
    rewrite (GetCoverage_valid input tex Hh).
    injection Hcov as <-.
    unfold GetTransform. rewrite Hmoved, Matrix_mul_assoc.
    rewrite TransformBounds_translated. reflexivity.
  - rewrite (GetCoverage_null input entity1 Hh) in Hcov. discriminate.
Qed.

Lemma GetCoverage_moves_with_entity_witness :
  GetCoverage (TextureFilterInput_new (Some (texture_100x50 1)) Matrix_identity)
              (entity_with (Matrix_mul (Matrix_MakeTranslation (Q_ 10 1) (Q_ 20 1))
                                       (Matrix_MakeScale (Q_ 1 2) (Q_ 1 2))))
  = Returns (Some (MkRect (0 + Q_ 10 1) (0 + Q_ 20 1) (Q_ 50 1) (Q_ 25 1))).
Proof.
  apply (GetCoverage_moves_with_entity
           (TextureFilterInput_new (Some (texture_100x50 1)) Matrix_identity)
           (entity_with (Matrix_MakeScale (Q_ 1 2) (Q_ 1 2)))
           (entity_with (Matrix_mul (Matrix_MakeTranslation (Q_ 10 1) (Q_ 20 1))
                                    (Matrix_MakeScale (Q_ 1 2) (Q_ 1 2))))
           (Q_ 10 1) (Q_ 20 1) (MkRect 0 0 (Q_ 50 1) (Q_ 25 1))).
  - reflexivity.
  - rewrite (GetCoverage_valid
               (TextureFilterInput_new (Some (texture_100x50 1)) Matrix_identity)
               (texture_100x50 1) eq_refl).
    coverage_eval.
Defined.

(** X7. A transform can be moved between the entity and the input: an
    input with local transform [l] under an entity whose transform is
    [e * m] gives the same snapshot and the same coverage as an input on
    the same handle with local transform [m * l] under an entity whose
    transform is [e]. *)
Theorem local_transform_absorbs_entity_factor `{Collaborators}
    (handle : shared_ptr Texture) (l m : Matrix)
    (renderer : ContentContext) (entity1 entity2 : Entity) :
  Entity_GetTransformation entity1 =
    Matrix_mul (Entity_GetTransformation entity2) m ->
  GetSnapshot (TextureFilterInput_new handle l) renderer entity1 =
  GetSnapshot (TextureFilterInput_new handle (Matrix_mul m l)) renderer entity2 /\
  GetCoverage (TextureFilterInput_new handle l) entity1 =
  GetCoverage (TextureFilterInput_new handle (Matrix_mul m l)) entity2.
Proof.
  intros He.
  assert (Ht : GetTransform (TextureFilterInput_new handle l) entity1 =
               GetTransform (TextureFilterInput_new handle (Matrix_mul m l))
                            entity2).
  { unfold GetTransform, GetLocalTransform.
    cbn [TextureFilterInput_new local_transform_].
    rewrite He. apply Matrix_mul_assoc. }
  unfold GetSnapshot, GetCoverage. rewrite Ht. split; reflexivity.
Qed.

Lemma local_transform_absorbs_entity_factor_witness :
  GetCoverage (TextureFilterInput_new (Some (texture_100x50 1)) Matrix_identity)
              (entity_with (Matrix_mul (Matrix_MakeScale (Q_ 1 2) (Q_ 1 2))
                                       (Matrix_MakeTranslation (Q_ 10 1) (Q_ 20 1))))
  = GetCoverage (TextureFilterInput_new (Some (texture_100x50 1))
                   (Matrix_mul (Matrix_MakeTranslation (Q_ 10 1) (Q_ 20 1))
                               Matrix_identity))
                (entity_with (Matrix_MakeScale (Q_ 1 2) (Q_ 1 2))).
Proof.
  apply (local_transform_absorbs_entity_factor
           (Some (texture_100x50 1)) Matrix_identity
           (Matrix_MakeTranslation (Q_ 10 1) (Q_ 20 1)) the_renderer
           (entity_with (Matrix_mul (Matrix_MakeScale (Q_ 1 2) (Q_ 1 2))
                                    (Matrix_MakeTranslation (Q_ 10 1) (Q_ 20 1))))
           (entity_with (Matrix_MakeScale (Q_ 1 2) (Q_ 1 2)))).
  reflexivity.
Defined.

(** X8. The coverage covers what the snapshot draws: on a valid handle,
    the image under the snapshot's transform of every point of the texture
    rectangle [[0, w] x [0, h]] lies in the rectangle of [GetCoverage]. *)
Theorem coverage_contains_every_texture_point `{Collaborators}
    (input : TextureFilterInput) (tex : Texture)
    (renderer : ContentContext) (entity : Entity) (p : Point) :
  texture_ input = Some tex ->
  0 <= px p -> px p <= Scalar_of_Z (isize_width (Texture_GetSize tex)) ->
  0 <= py p -> py p <= Scalar_of_Z (isize_height (Texture_GetSize tex)) ->
  exists (snapshot : Snapshot) (coverage : Rect),
    GetSnapshot input renderer entity = Returns (Some snapshot) /\
    GetCoverage input entity = Returns (Some coverage) /\
    Rect_Contains coverage (Matrix_apply (transform snapshot) p).
Proof.
  intros Hvalid Hx0 Hx1 Hy0 Hy1.
  eexists. eexists.
  split; [apply (GetSnapshot_valid input tex Hvalid)|].
  split; [apply (GetCoverage_valid input tex Hvalid)|].
  cbn [transform]. apply TransformBounds_covers.
  unfold Rect_Contains, Rect_MakeSize, Rect_GetLeft, Rect_GetRight,
    Rect_GetTop, Rect_GetBottom.
  cbn [rect_x rect_y rect_width rect_height].
  rewrite !Qcplus_0_l.
  split; [exact Hx0|]. split; [exact Hx1|]. split; [exact Hy0 | exact Hy1].
Qed.

Lemma coverage_contains_every_texture_point_witness :
  exists (snapshot : Snapshot) (coverage : Rect),
    GetSnapshot (TextureFilterInput_new (Some (texture_100x50 1)) Matrix_identity)
                the_renderer
                (entity_with (MkMatrix (Q_ 3 5) (Q_ (-4) 5) 0 (Q_ 4 5) (Q_ 3 5) 0))
      = Returns (Some snapshot) /\
    GetCoverage (TextureFilterInput_new (Some (texture_100x50 1)) Matrix_identity)
                (entity_with (MkMatrix (Q_ 3 5) (Q_ (-4) 5) 0 (Q_ 4 5) (Q_ 3 5) 0))
      = Returns (Some coverage) /\
    Rect_Contains coverage
      (Matrix_apply (transform snapshot) (MkPoint (Q_ 30 1) (Q_ 7 2))).
Proof.
  apply (coverage_contains_every_texture_point
           (TextureFilterInput_new (Some (texture_100x50 1)) Matrix_identity)
           (texture_100x50 1) the_renderer
           (entity_with (MkMatrix (Q_ 3 5) (Q_ (-4) 5) 0 (Q_ 4 5) (Q_ 3 5) 0))
           (MkPoint (Q_ 30 1) (Q_ 7 2)));
    try reflexivity; apply sleb_true; vm_compute; reflexivity.
Defined.

(** X9. The snapshot places the texture with the local transform first:
    on a valid handle, the snapshot's transform maps a point to the image,
    under the accumulated transform of the entity, of its image under
    [GetLocalTransform]. *)
Theorem snapshot_transform_applies_local_first `{Collaborators}
    (input : TextureFilterInput) (tex : Texture)
    (renderer : ContentContext) (entity : Entity) (p : Point) :
  texture_ input = Some tex ->
  exists snapshot : Snapshot,
    GetSnapshot input renderer entity = Returns (Some snapshot) /\
    Matrix_apply (transform snapshot) p =
    Matrix_apply (Entity_GetTransformation entity)
                 (Matrix_apply (GetLocalTransform input entity) p).
Proof.
  intros Hvalid.
  eexists. split; [apply (GetSnapshot_valid input tex Hvalid)|].
  cbn [transform]. unfold GetTransform. apply Matrix_apply_mul.
Qed.

Lemma snapshot_transform_applies_local_first_witness :
  exists snapshot : Snapshot,
    GetSnapshot (TextureFilterInput_new (Some (texture_100x50 1))
                   (Matrix_MakeTranslation (Q_ 10 1) (Q_ 20 1)))
                the_renderer (entity_with (Matrix_MakeScale (Q_ 1 2) (Q_ 1 2)))
      = Returns (Some snapshot) /\
    Matrix_apply (transform snapshot) (MkPoint 0 0) = MkPoint (Q_ 5 1) (Q_ 10 1).
Proof.
  destruct (snapshot_transform_applies_local_first
              (TextureFilterInput_new (Some (texture_100x50 1))
                 (Matrix_MakeTranslation (Q_ 10 1) (Q_ 20 1)))
              (texture_100x50 1) the_renderer
              (entity_with (Matrix_MakeScale (Q_ 1 2) (Q_ 1 2)))
              (MkPoint 0 0))
    as [snapshot [Hs Hp]].
  - reflexivity.
  - exists snapshot. split; [exact Hs|]. rewrite Hp.
    unfold Matrix_apply. f_equal; scalar_eval.
Defined.
